(** * k9s, internal/resource/container.go

    A shallow embedding of the container resource of k9s: the log tail
    ([Container.Logs]) as an interleaving transition system over the
    goroutines it starts, and the tabular part ([List], [Fields],
    [resources]) as pure functions. *)

From Stdlib Require Import ZArith Lia PrimFloat Uint63.
From stdpp Require Import base tactics option list strings gmap pretty.

Local Open Scope string_scope.

(** ** Go runtime outcomes *)

(** A Go call either returns or panics. *)
Inductive result (A : Type) : Type :=
| Ok (a : A)
| Panic (msg : string).
Arguments Ok {A} a.
Arguments Panic {A} msg.

#[global] Instance result_ret : MRet result := fun _ a => Ok a.
#[global] Instance result_bind : MBind result := fun _ _ f m =>
  match m with
  | Ok a => f a
  | Panic msg => Panic msg
  end.

(** * The log tail: [Container.Logs] *)

Module Tail.

(** How the opened stream behaves once the scanner has handed out its
    lines: it reaches end of data, a read fails, or the read blocks. *)
Inductive StreamEnd : Type := EndOfData | ReadError | Hangs.

(** Outcome of [req.Stream()] (line 97).  An opened stream is given by the
    tokens [bufio.Scanner] yields from it, in order, and by the way it
    ends. *)
Inductive OpenResult : Type :=
| Opened (lines : list string) (e : StreamEnd)
| OpenFailed (err : string).

(** What a call of [Logs] is given: the request outcome, and the capacity
    of the channel [c] the caller passes in (0 for an unbuffered one). *)
Record Config : Type := mkConfig {
  open_result : OpenResult;
  capacity : nat
}.

(** The parties taking atomic steps.  [Main] is the body of [Logs],
    [Watchdog] the goroutine of lines 79-94, [Bridge] the goroutine of
    lines 109-126, [Caller] a call of the returned [cancel], [Consumer] a
    receive on [c], and [Transport] the request's transport failing a
    pending read because the request context (line 76) is done. *)
Inductive Actor : Type := Main | Watchdog | Bridge | Caller | Consumer | Transport.

(** Program points of [Logs]. *)
Inductive MainPc : Type :=
| M_Start                        (* lines 74-94: ctx, blocked := true, go watchdog *)
| M_Open                         (* line 97: req.Stream() *)
| M_Unblock                      (* lines 103-107: blocked = false under Lock *)
| M_Spawn                        (* line 109: go bridge *)
| M_Return                       (* line 128: return cancel, nil *)
| M_Returned (err : option string).

(** Program points of the watchdog goroutine. *)
Inductive WatchPc : Type :=
| W_Idle                         (* not started *)
| W_Timer                        (* line 81: waiting on time.After *)
| W_Close                        (* line 90: close(c) *)
| W_Cancel                       (* line 91: cancel() *)
| W_Done.

(** Program points of the bridge goroutine. *)
Inductive BridgePc : Type :=
| B_Idle                         (* not started *)
| B_Scan                         (* line 118: scanner.Scan() *)
| B_Send (l : string)            (* line 119: c <- scanner.Text() *)
| B_Check                        (* lines 120-124: select on ctx.Done() *)
| B_Close                        (* line 112: deferred close(c) *)
| B_StreamClose                  (* line 113: stream.Close() *)
| B_Cancel                       (* line 114: cancel() *)
| B_Done.

(** What is observable of a run, newest event first. *)
Inductive Event : Type :=
| EvSend (l : string)            (* a send on c completed *)
| EvClose                        (* close(c) succeeded *)
| EvFire                         (* ctx went from armed to done *)
| EvStreamClose                  (* stream.Close() *)
| EvPanic.                       (* send on, or close of, a closed channel *)

Record State : Type := mkState {
  m_pc : MainPc;
  w_pc : WatchPc;
  b_pc : BridgePc;
  blocked : bool;                (* the flag of line 78, guarded by r.mx *)
  closes : bool;                 (* the watchdog's local of line 82 *)
  ctx_done : bool;               (* ctx.Done() is closed *)
  stream : list string;          (* tokens the scanner has not handed out yet *)
  stream_closed : bool;
  buf : list string;             (* buffer of c, oldest first *)
  ch_closed : bool;
  received : list string;        (* what the consumer has read from c *)
  seen_closed : bool;            (* the consumer has seen c closed *)
  panicking : bool;              (* the bridge is unwinding a panic *)
  crashed : bool;                (* an unrecovered panic ended the process *)
  trace : list Event
}.

Definition init : State :=
  {| m_pc := M_Start; w_pc := W_Idle; b_pc := B_Idle;
     blocked := true; closes := false; ctx_done := false;
     stream := []; stream_closed := false;
     buf := []; ch_closed := false; received := []; seen_closed := false;
     panicking := false; crashed := false; trace := [] |}.

Definition set_m_pc (v : MainPc) (s : State) : State :=
  mkState v (w_pc s) (b_pc s) (blocked s) (closes s) (ctx_done s) (stream s)
    (stream_closed s) (buf s) (ch_closed s) (received s) (seen_closed s)
    (panicking s) (crashed s) (trace s).
Definition set_w_pc (v : WatchPc) (s : State) : State :=
  mkState (m_pc s) v (b_pc s) (blocked s) (closes s) (ctx_done s) (stream s)
    (stream_closed s) (buf s) (ch_closed s) (received s) (seen_closed s)
    (panicking s) (crashed s) (trace s).
Definition set_b_pc (v : BridgePc) (s : State) : State :=
  mkState (m_pc s) (w_pc s) v (blocked s) (closes s) (ctx_done s) (stream s)
    (stream_closed s) (buf s) (ch_closed s) (received s) (seen_closed s)
    (panicking s) (crashed s) (trace s).
Definition set_blocked (v : bool) (s : State) : State :=
  mkState (m_pc s) (w_pc s) (b_pc s) v (closes s) (ctx_done s) (stream s)
    (stream_closed s) (buf s) (ch_closed s) (received s) (seen_closed s)
    (panicking s) (crashed s) (trace s).
Definition set_closes (v : bool) (s : State) : State :=
  mkState (m_pc s) (w_pc s) (b_pc s) (blocked s) v (ctx_done s) (stream s)
    (stream_closed s) (buf s) (ch_closed s) (received s) (seen_closed s)
    (panicking s) (crashed s) (trace s).
Definition set_ctx_done (v : bool) (s : State) : State :=
  mkState (m_pc s) (w_pc s) (b_pc s) (blocked s) (closes s) v (stream s)
    (stream_closed s) (buf s) (ch_closed s) (received s) (seen_closed s)
    (panicking s) (crashed s) (trace s).
Definition set_stream (v : list string) (s : State) : State :=
  mkState (m_pc s) (w_pc s) (b_pc s) (blocked s) (closes s) (ctx_done s) v
    (stream_closed s) (buf s) (ch_closed s) (received s) (seen_closed s)
    (panicking s) (crashed s) (trace s).
Definition set_stream_closed (v : bool) (s : State) : State :=
  mkState (m_pc s) (w_pc s) (b_pc s) (blocked s) (closes s) (ctx_done s) (stream s)
    v (buf s) (ch_closed s) (received s) (seen_closed s)
    (panicking s) (crashed s) (trace s).
Definition set_buf (v : list string) (s : State) : State :=
  mkState (m_pc s) (w_pc s) (b_pc s) (blocked s) (closes s) (ctx_done s) (stream s)
    (stream_closed s) v (ch_closed s) (received s) (seen_closed s)
    (panicking s) (crashed s) (trace s).
Definition set_ch_closed (v : bool) (s : State) : State :=
  mkState (m_pc s) (w_pc s) (b_pc s) (blocked s) (closes s) (ctx_done s) (stream s)
    (stream_closed s) (buf s) v (received s) (seen_closed s)
    (panicking s) (crashed s) (trace s).
Definition set_received (v : list string) (s : State) : State :=
  mkState (m_pc s) (w_pc s) (b_pc s) (blocked s) (closes s) (ctx_done s) (stream s)
    (stream_closed s) (buf s) (ch_closed s) v (seen_closed s)
    (panicking s) (crashed s) (trace s).
Definition set_seen_closed (v : bool) (s : State) : State :=
  mkState (m_pc s) (w_pc s) (b_pc s) (blocked s) (closes s) (ctx_done s) (stream s)
    (stream_closed s) (buf s) (ch_closed s) (received s) v
    (panicking s) (crashed s) (trace s).
Definition set_panicking (v : bool) (s : State) : State :=
  mkState (m_pc s) (w_pc s) (b_pc s) (blocked s) (closes s) (ctx_done s) (stream s)
    (stream_closed s) (buf s) (ch_closed s) (received s) (seen_closed s)
    v (crashed s) (trace s).
Definition set_crashed (v : bool) (s : State) : State :=
  mkState (m_pc s) (w_pc s) (b_pc s) (blocked s) (closes s) (ctx_done s) (stream s)
    (stream_closed s) (buf s) (ch_closed s) (received s) (seen_closed s)
    (panicking s) v (trace s).
Definition log (e : Event) (s : State) : State :=
  mkState (m_pc s) (w_pc s) (b_pc s) (blocked s) (closes s) (ctx_done s) (stream s)
    (stream_closed s) (buf s) (ch_closed s) (received s) (seen_closed s)
    (panicking s) (crashed s) (e :: trace s).

(** [cancel()] of [context.WithCancel] (line 75): the first call closes
    [ctx.Done()], every later call does nothing. *)
Definition cancel (s : State) : State :=
  if ctx_done s then s else log EvFire (set_ctx_done true s).

(** [close(c)]: a [None] result is the run-time panic "close of closed
    channel". *)
Definition close_chan (s : State) : option State :=
  if ch_closed s then None else Some (log EvClose (set_ch_closed true s)).

(** [Logs], one program point at a time. *)
Definition step_main (cfg : Config) (s : State) : State :=
  match m_pc s with
  | M_Start => set_m_pc M_Open (set_w_pc W_Timer (set_blocked true s))
  | M_Open =>
      match open_result cfg with
      | Opened ls _ => set_m_pc M_Unblock (set_stream ls s)
      | OpenFailed err => set_m_pc (M_Returned (Some err)) s
      end
  | M_Unblock => set_m_pc M_Spawn (set_blocked false s)
  | M_Spawn => set_m_pc M_Return (set_b_pc B_Scan s)
  | M_Return => set_m_pc (M_Returned None) s
  | M_Returned _ => s
  end.

(** The watchdog goroutine (lines 79-94). *)
Definition step_watchdog (s : State) : State :=
  match w_pc s with
  | W_Idle => s
  | W_Timer =>
      let s' := set_closes (blocked s) s in
      if blocked s then set_w_pc W_Close s' else set_w_pc W_Done s'
  | W_Close =>
      match close_chan s with
      | Some s' => set_w_pc W_Cancel s'
      | None => set_crashed true (log EvPanic s)
      end
  | W_Cancel => set_w_pc W_Done (cancel s)
  | W_Done => s
  end.

(** The bridge goroutine (lines 109-126).  A send blocks while the buffer
    is full; a panicking send runs the deferred function before the
    process dies. *)
Definition step_bridge (cfg : Config) (s : State) : State :=
  match b_pc s with
  | B_Idle => s
  | B_Scan =>
      match stream s with
      | l :: rest => set_b_pc (B_Send l) (set_stream rest s)
      | [] =>
          match open_result cfg with
          | Opened _ Hangs => s
          | _ => set_b_pc B_Close s
          end
      end
  | B_Send l =>
      if ch_closed s then
        set_b_pc B_Close (set_panicking true (log EvPanic s))
      else if decide (length (buf s) < capacity cfg) then
        set_b_pc B_Check (log (EvSend l) (set_buf (buf s ++ [l]) s))
      else s
  | B_Check => if ctx_done s then set_b_pc B_Close s else set_b_pc B_Scan s
  | B_Close =>
      match close_chan s with
      | Some s' => set_b_pc B_StreamClose s'
      | None => set_crashed true (log EvPanic s)
      end
  | B_StreamClose =>
      set_b_pc B_Cancel (log EvStreamClose (set_stream_closed true s))
  | B_Cancel =>
      let s' := cancel s in
      if panicking s then set_crashed true s' else set_b_pc B_Done s'
  | B_Done => s
  end.

(** The caller holds [cancel] once [Logs] has returned. *)
Definition step_caller (s : State) : State :=
  match m_pc s with
  | M_Returned _ => cancel s
  | _ => s
  end.

(** A receive on [c]: buffered lines first, then the closed mark; on an
    empty open channel a sender waiting at line 119 hands its line over. *)
Definition step_consumer (s : State) : State :=
  match buf s with
  | l :: rest => set_received (received s ++ [l]) (set_buf rest s)
  | [] =>
      if ch_closed s then set_seen_closed true s
      else
        match b_pc s with
        | B_Send l =>
            set_b_pc B_Check (log (EvSend l) (set_received (received s ++ [l]) s))
        | _ => s
        end
  end.

(** A read pending in [scanner.Scan()] fails once the context is done. *)
Definition step_transport (s : State) : State :=
  match b_pc s with
  | B_Scan => if ctx_done s then set_b_pc B_Close s else s
  | _ => s
  end.

Definition step (cfg : Config) (a : Actor) (s : State) : State :=
  if crashed s then s
  else
    match a with
    | Main => step_main cfg s
    | Watchdog => step_watchdog s
    | Bridge => step_bridge cfg s
    | Caller => step_caller s
    | Consumer => step_consumer s
    | Transport => step_transport s
    end.

(** A schedule lists who moves, oldest first. *)
Definition run (cfg : Config) (sched : list Actor) (s : State) : State :=
  foldl (fun s a => step cfg a s) s sched.

Definition exec (cfg : Config) (sched : list Actor) : State :=
  run cfg sched init.

(** *** Observations on traces *)

Definition is_send (e : Event) : bool :=
  match e with EvSend _ => true | _ => false end.
Definition is_fire (e : Event) : bool :=
  match e with EvFire => true | _ => false end.
Definition is_close (e : Event) : bool :=
  match e with EvClose => true | _ => false end.
Definition is_panic (e : Event) : bool :=
  match e with EvPanic => true | _ => false end.
Definition is_stream_close (e : Event) : bool :=
  match e with EvStreamClose => true | _ => false end.

Fixpoint count (p : Event -> bool) (tr : list Event) : nat :=
  match tr with
  | [] => 0
  | e :: tr' => (if p e then 1 else 0) + count p tr'
  end.


(** The lines sent on [c], in sending order. *)
Fixpoint sends (tr : list Event) : list string :=
  match tr with
  | [] => []
  | EvSend l :: tr' => sends tr' ++ [l]
  | _ :: tr' => sends tr'
  end.

(** Number of sends that completed after the signal had fired. *)
Fixpoint sends_after_fire (tr : list Event) : nat :=
  match tr with
  | [] => 0
  | e :: tr' =>
      (if is_send e && existsb is_fire tr' then 1 else 0) + sends_after_fire tr'
  end.

(** Number of sends that completed after the channel had been closed. *)
Fixpoint sends_after_close (tr : list Event) : nat :=
  match tr with
  | [] => 0
  | e :: tr' =>
      (if is_send e && existsb is_close tr' then 1 else 0) + sends_after_close tr'
  end.

(** The line the bridge holds at line 119, if it is there. *)
Definition pending (pc : BridgePc) : list string :=
  match pc with
  | B_Send l => [l]
  | _ => []
  end.

(** The bridge is past its deferred [close(c)]. *)
Definition past_close (pc : BridgePc) : bool :=
  match pc with
  | B_StreamClose | B_Cancel | B_Done => true
  | _ => false
  end.

(** The bridge has left its read loop. *)
Definition loop_left (pc : BridgePc) : bool :=
  match pc with
  | B_Close | B_StreamClose | B_Cancel | B_Done => true
  | _ => false
  end.

Definition lines_of (cfg : Config) : list string :=
  match open_result cfg with
  | Opened ls _ => ls
  | OpenFailed _ => []
  end.

(** The tokens the scanner was given so far. *)
Definition handed_out (cfg : Config) (s : State) : list string :=
  match m_pc s with
  | M_Start | M_Open => []
  | _ => lines_of cfg
  end.

(** [Logs] has not started the bridge yet. *)
Definition not_spawned (pc : MainPc) : bool :=
  match pc with
  | M_Start | M_Open | M_Unblock | M_Spawn => true
  | _ => false
  end.

(** The watchdog has not read the flag yet. *)
Definition timer_pending (pc : WatchPc) : bool :=
  match pc with
  | W_Idle | W_Timer => true
  | _ => false
  end.

(** The watchdog is past its [close(c)]. *)
Definition watchdog_closed (pc : WatchPc) : bool :=
  match pc with
  | W_Cancel | W_Done => true
  | _ => false
  end.

(** The watchdog is in its closing branch (lines 89-91). *)
Definition watchdog_acting (pc : WatchPc) : bool :=
  match pc with
  | W_Close | W_Cancel => true
  | _ => false
  end.


(** One turn of the read loop with a consumer that keeps receiving: scan,
    send (or wait for the receiver), receive, check. *)
Definition round : list Actor := [Bridge; Bridge; Consumer; Bridge].

(** [Logs] from call to return, then [n] turns of the loop, then the
    deferred cleanup and the receive that sees the channel closed. *)
Definition tail_schedule (n : nat) : list Actor :=
  ([Main; Main; Main; Main; Main] ++ mjoin (replicate n round)
   ++ [Bridge; Bridge; Bridge; Bridge; Consumer])%list.

(** The schedule that winds a cancelled tail down: the pending read
    fails, the consumer takes what is in flight, the bridge finishes, the
    consumer drains the buffer and sees the channel closed. *)
Definition wind_down (s : State) : list Actor :=
  ([Transport; Consumer; Bridge; Bridge; Bridge; Bridge; Bridge]
   ++ replicate (S (length (buf s))) Consumer)%list.

End Tail.

(** * The tabular part: [List], [Fields] and their helpers *)

Module Resource.

(** ** The Kubernetes objects the file reads *)

(** [resource.Quantity], through the two readings the code takes of it. *)
Record Quantity : Type := mkQuantity {
  MilliValue : Z;
  Value : Z
}.

Definition zeroQuantity : Quantity := mkQuantity 0 0.

(** [v1.ResourceList] is a Go map from resource names to quantities; a nil
    map reads like the empty one. *)
Abbreviation ResourceList := (gmap string Quantity).

Definition ResourceCPU : string := "cpu".
Definition ResourceMemory : string := "memory".

(** [r[k]] on a Go map: the zero value when [k] is absent. *)
Definition index (r : ResourceList) (k : string) : Quantity :=
  default zeroQuantity (r !! k).

Record ResourceRequirements : Type := mkResourceRequirements {
  Limits : ResourceList;
  Requests : ResourceList
}.

Inductive Probe : Type := mkProbe.

(** [v1.Container]. *)
Record v1Container : Type := mkV1Container {
  co_Name : string;
  co_Image : string;
  co_Resources : ResourceRequirements;
  co_LivenessProbe : option Probe;
  co_ReadinessProbe : option Probe
}.

Record ContainerStateWaiting : Type := mkWaiting { w_Reason : string }.
Record ContainerStateTerminated : Type := mkTerminated { t_Reason : string }.
Inductive ContainerStateRunning : Type := mkRunning.

Record ContainerState : Type := mkContainerState {
  st_Waiting : option ContainerStateWaiting;
  st_Running : option ContainerStateRunning;
  st_Terminated : option ContainerStateTerminated
}.

Record ContainerStatus : Type := mkContainerStatus {
  cs_Name : string;
  cs_State : ContainerState;
  cs_Ready : bool;
  cs_RestartCount : Z
}.

(** The zero value of [v1.ContainerStatus]. *)
Definition zeroStatus : ContainerStatus :=
  mkContainerStatus "" (mkContainerState None None None) false 0.

(** [metav1.Time], as seconds. *)
Abbreviation Time := Z (only parsing).

Record ObjectMeta : Type := mkObjectMeta {
  om_Namespace : string;
  om_Name : string;
  om_CreationTimestamp : Time
}.

Record PodSpec : Type := mkPodSpec {
  InitContainers : list v1Container;
  Containers : list v1Container
}.

Record PodStatus : Type := mkPodStatus {
  InitContainerStatuses : list ContainerStatus;
  ContainerStatuses : list ContainerStatus
}.

Record Pod : Type := mkPod {
  pod_ObjectMeta : ObjectMeta;
  pod_Spec : PodSpec;
  pod_Status : PodStatus
}.

Record ContainerMetrics : Type := mkContainerMetrics {
  cm_Name : string;
  cm_Usage : ResourceList
}.

Record PodMetrics : Type := mkPodMetrics {
  pm_Containers : list ContainerMetrics
}.

(** ** What the package provides in its other files *)

(** The constants and helpers [container.go] uses and other files of the
    package define. *)
Class Helpers : Type := mkHelpers {
  Connection : Type;
  MetricsServer : Type;
  MissingValue : string;
  ToMillicore : Z -> string;
  ToMi : float -> string;
  ToMB : Z -> float;
  boolToStr : bool -> string;
  toAge : Time -> string;
  namespacedName : ObjectMeta -> string
}.

Section WithHelpers.
Context `{H : Helpers}.

(** ** The resource *)

(** The [Container] struct; [pod] is taken non-nil, [instance] and
    [metrics] are pointers and may be nil; [path] is the field of the
    embedded [Base]. *)
Record Container : Type := mkContainer {
  connection : Connection;
  pod : Pod;
  isInit : bool;
  instance : option v1Container;
  metricsServer : MetricsServer;
  metrics : option PodMetrics;
  path : string
}.

Definition set_isInit (b : bool) (c : Container) : Container :=
  mkContainer (connection c) (pod c) b (instance c) (metricsServer c)
    (metrics c) (path c).

Definition set_instance (i : option v1Container) (c : Container) : Container :=
  mkContainer (connection c) (pod c) (isInit c) i (metricsServer c)
    (metrics c) (path c).

Definition set_path (p : string) (c : Container) : Container :=
  mkContainer (connection c) (pod c) (isInit c) (instance c) (metricsServer c)
    (metrics c) p.

Definition NewContainer (c : Connection) (mx : MetricsServer) (p : Pod) : Container :=
  mkContainer c p false None mx (Some (mkPodMetrics [])) "".

(** The dynamic type and value of an [interface{}] argument. *)
Inductive Iface : Type :=
| AsContainer (c : v1Container)              (* a v1.Container *)
| AsContainerPtr (p : option v1Container).   (* a pointer to one *)

(** [New]: the type assertion of line 56 panics unless the dynamic type
    of [i] is pointer-to-[v1.Container]; reading [Name] through a nil
    pointer panics too. *)
Definition New (r : Container) (i : Iface) : result Container :=
  let co := NewContainer (connection r) (metricsServer r) (pod r) in
  match i with
  | AsContainerPtr p =>
      match p with
      | Some inst =>
          Ok (set_path (namespacedName (pod_ObjectMeta (pod r)) ++ ":" ++ co_Name inst)
                (set_instance p co))
      | None => Panic "invalid memory address or nil pointer dereference"
      end
  | AsContainer _ =>
      Panic "interface conversion: interface {} is v1.Container, not *v1.Container"
  end.

(** [List]: the loops hand the range variable [co], a [v1.Container]
    value, to [New]. *)
Definition List (r : Container) (ns : string) : result (list Container * option string) :=
  let icos := InitContainers (pod_Spec (pod r)) in
  let cos := Containers (pod_Spec (pod r)) in
  cc ← foldl (fun (acc : result (list Container)) co =>
                cc ← acc;
                ci ← New r (AsContainer co);
                Ok (cc ++ [set_isInit true ci])%list)
             (Ok []) icos;
  cc ← foldl (fun (acc : result (list Container)) co =>
                cc ← acc;
                ci ← New r (AsContainer co);
                Ok (cc ++ [ci])%list)
             (Ok cc) cos;
  Ok (cc, None).

Definition Header (ns : string) : list string :=
  ["NAME"; "IMAGE"; "READY"; "STATE"; "RS"; "LPROB"; "RPROB";
   "CPU"; "MEM"; "RCPU"; "RMEM"; "AGE"].

Definition toState (s : ContainerState) : string :=
  match st_Waiting s with
  | Some w => if decide (w_Reason w ≠ "") then w_Reason w else "Waiting"
  | None =>
      match st_Terminated s with
      | Some t => if decide (t_Reason t ≠ "") then t_Reason t else "Terminated"
      | None =>
          match st_Running s with
          | Some _ => "Running"
          | None => MissingValue
          end
      end
  end.

Definition toRes (r : ResourceList) : string * string :=
  let cpu := index r ResourceCPU in
  let mem := index r ResourceMemory in
  (ToMillicore (MilliValue cpu), ToMi (ToMB (Value mem))).

Definition resources (c : v1Container) : string * string :=
  let req := Requests (co_Resources c) in
  let lim := Limits (co_Resources c) in
  if decide (size req = 0) then
    if decide (size lim ≠ 0) then toRes lim else ("0", "0")
  else toRes req.

Definition probe (p : option Probe) : string :=
  match p with
  | None => "no"
  | Some _ => "yes"
  end.

(** The metrics loop of lines 177-183: the first sample with the
    container's name, zero values without one. *)
Fixpoint usage (name : string) (cs : list ContainerMetrics) : Z * float :=
  match cs with
  | [] => (0%Z, 0%float)
  | co :: rest =>
      if decide (cm_Name co = name) then
        (MilliValue (index (cm_Usage co) ResourceCPU),
         ToMB (Value (index (cm_Usage co) ResourceMemory)))
      else usage name rest
  end.

(** The two range loops of lines 188-193 and 196-201 each declare one
    variable [c] that every iteration overwrites, and [cs = &c] stores the
    address of that variable. *)
Inductive LoopVar : Type := StatusVar | InitStatusVar.

#[global] Instance LoopVar_eq_dec : EqDecision LoopVar.
Proof. solve_decision. Defined.

Definition Store : Type := LoopVar -> ContainerStatus.

Definition zeroStore : Store := fun _ => zeroStatus.

Definition assign (x : LoopVar) (v : ContainerStatus) (st : Store) : Store :=
  fun y => if decide (x = y) then v else st y.

(** One pass of [for _, c := range xs { if c.Name != name { continue }; cs = &c }]
    with [x] the loop's variable. *)
Definition range_statuses (x : LoopVar) (name : string)
    (xs : list ContainerStatus) (acc : Store * option LoopVar) : Store * option LoopVar :=
  foldl (fun acc el =>
           let st := assign x el acc.1 in
           if decide (cs_Name el ≠ name) then (st, acc.2) else (st, Some x))
        acc xs.

(** The status [cs] points to after lines 187-202, if any. *)
Definition find_status (p : Pod) (name : string) : option ContainerStatus :=
  let r1 := range_statuses StatusVar name (ContainerStatuses (pod_Status p))
              (zeroStore, None) in
  let r2 := match r1.2 with
            | None => range_statuses InitStatusVar name
                        (InitContainerStatuses (pod_Status p)) r1
            | Some _ => r1
            end in
  match r2.2 with
  | None => None
  | Some x => Some (r2.1 x)
  end.

(** The three status columns of lines 204-207. *)
Definition status_columns (cs : option ContainerStatus) : string * string * string :=
  match cs with
  | None => ("false", MissingValue, "0")
  | Some v => (boolToStr (cs_Ready v), toState (cs_State v), pretty (cs_RestartCount v))
  end.

Definition Fields (r : Container) (ns : string) : result (list string) :=
  match instance r with
  | None => Panic "invalid memory address or nil pointer dereference"
  | Some i =>
      let '(cpu, mem) :=
        match metrics r with
        | Some m => usage (co_Name i) (pm_Containers m)
        | None => (0%Z, 0%float)
        end in
      let '(rcpu, rmem) := resources i in
      let '(ready, state, restarts) :=
        status_columns (find_status (pod r) (co_Name i)) in
      Ok [co_Name i; co_Image i; ready; state; restarts;
          probe (co_LivenessProbe i); probe (co_ReadinessProbe i);
          ToMillicore cpu; ToMi mem; rcpu; rmem;
          toAge (om_CreationTimestamp (pod_ObjectMeta (pod r)))]
  end.

End WithHelpers.

End Resource.

(** * Sample data *)

Module Samples.

Import Resource.

(** Helpers in the way the package writes them, for evaluating examples. *)
Definition plainHelpers : Helpers :=
  {| Connection := unit; MetricsServer := unit; MissingValue := "<none>";
     ToMillicore := fun z => pretty z ++ "m";
     ToMi := fun f => if PrimFloat.eqb f 0 then "0Mi" else "Mi";
     ToMB := fun z => PrimFloat.div (PrimFloat.of_uint63 (Uint63.of_Z z)) 1048576;
     boolToStr := fun b => if b then "true" else "false";
     toAge := fun t => pretty t;
     namespacedName := fun m => om_Namespace m ++ "/" ++ om_Name m |}.

Definition cpuOnly (milli : Z) : gmap string Quantity :=
  {[ ResourceCPU := mkQuantity milli 1 ]}.

(** A container asking for 100m of CPU, limited to 500m. *)
Definition coA : v1Container :=
  mkV1Container "a" "img-a" (mkResourceRequirements (cpuOnly 500) (cpuOnly 100))
    None (Some mkProbe).

(** A container with limits only, and one with no resources at all. *)
Definition coB : v1Container :=
  mkV1Container "b" "img-b" (mkResourceRequirements (cpuOnly 500) ∅) None None.

Definition coC : v1Container :=
  mkV1Container "c" "img-c" (mkResourceRequirements ∅ ∅) None None.

Definition stA : ContainerStatus :=
  mkContainerStatus "a" (mkContainerState None (Some mkRunning) None) true 3.

Definition stB : ContainerStatus :=
  mkContainerStatus "b"
    (mkContainerState (Some (mkWaiting "CrashLoopBackOff")) None None) false 7.

(** A pod running [a] and [b], in that order. *)
Definition podAB : Pod :=
  mkPod (mkObjectMeta "default" "web" 0) (mkPodSpec [] [coA; coB])
    (mkPodStatus [] [stA; stB]).

(** The same pod before any status has been reported. *)
Definition podFresh : Pod :=
  mkPod (mkObjectMeta "default" "web" 0) (mkPodSpec [] [coA; coB])
    (mkPodStatus [] []).

(** The resource of [podAB], and the entry for its container [a]. *)
Definition resAB : Container (H := plainHelpers) :=
  NewContainer (H := plainHelpers) tt tt podAB.

Definition entryA : Container (H := plainHelpers) :=
  set_instance (H := plainHelpers) (Some coA) resAB.

End Samples.

(** * Invariants of the log tail *)

Module TailInv.

Import Tail.

(** The bridge is past its [stream.Close()]. *)
Definition past_stream_close (pc : BridgePc) : bool :=
  match pc with
  | B_Cancel | B_Done => true
  | _ => false
  end.

(** The trace holds one [EvFire] exactly when the context is done. *)
Definition fired_once (s : State) : Prop :=
  count is_fire (trace s) = if ctx_done s then 1 else 0.

(** Structure that holds in every reachable state. *)
Definition shape (s : State) : Prop :=
  (blocked s = true -> b_pc s = B_Idle)
  /\ (b_pc s = B_Idle -> crashed s = false /\ panicking s = false)
  /\ (b_pc s = B_Idle -> watchdog_closed (w_pc s) = false -> ch_closed s = false)
  /\ (timer_pending (w_pc s) = true -> closes s = false)
  /\ (not_spawned (m_pc s) = true -> b_pc s = B_Idle)
  /\ (crashed s = true -> ch_closed s = true)
  /\ (m_pc s = M_Start -> w_pc s = W_Idle)
  /\ (m_pc s = M_Spawn -> blocked s = false)
  /\ (past_close (b_pc s) = true -> ch_closed s = true)
  /\ (panicking s = true -> ch_closed s = true).

(** While the watchdog has not chosen to close, nothing panics and only
    the bridge's cleanup closes the channel. *)
Definition calm (s : State) : Prop :=
  closes s = false ->
  crashed s = false /\ panicking s = false
  /\ count is_panic (trace s) = 0
  /\ ch_closed s = past_close (b_pc s)
  /\ watchdog_acting (w_pc s) = false.

(** Bookkeeping of lines while the watchdog has not chosen to close:
    every token handed to the scanner is sent, held by the bridge, or
    still unread; every line sent is received or buffered. *)
Definition ledger (cfg : Config) (s : State) : Prop :=
  closes s = false ->
  length (buf s) <= capacity cfg
  /\ (seen_closed s = true -> ch_closed s = true /\ buf s = [])
  /\ (received s ++ buf s)%list = sends (trace s)
  /\ (sends (trace s) ++ pending (b_pc s) ++ stream s)%list = handed_out cfg s.

(** Once the signal has fired the bridge completes at most one send, and
    after that send it is on its way out of the loop. *)
Definition winding (s : State) : Prop :=
  ctx_done s = existsb is_fire (trace s)
  /\ sends_after_fire (trace s) <= 1
  /\ (sends_after_fire (trace s) = 1 ->
      ctx_done s = true
      /\ (b_pc s = B_Check \/ loop_left (b_pc s) = true)).

(** Without a caller's cancel and with an inert watchdog, the signal
    fires only at the end of the bridge's cleanup, and the loop is left
    only when the stream is exhausted and does not block. *)
Definition undisturbed (cfg : Config) (s : State) : Prop :=
  closes s = false ->
  (ctx_done s = true -> b_pc s = B_Done)
  /\ (loop_left (b_pc s) = true ->
      stream s = [] /\ forall ls, open_result cfg <> Opened ls Hangs).

(** What the channel's log can look like: one close at most, no send
    after it, and a panic behind every crash. *)
Definition channel_log (s : State) : Prop :=
  count is_close (trace s) = (if ch_closed s then 1 else 0)
  /\ existsb is_close (trace s) = ch_closed s
  /\ sends_after_close (trace s) = 0
  /\ (count is_panic (trace s) = 0 -> crashed s = false /\ panicking s = false).

(** The stream handle is closed by the bridge's cleanup, once. *)
Definition cleanup_log (s : State) : Prop :=
  stream_closed s = past_stream_close (b_pc s)
  /\ count is_stream_close (trace s) = (if stream_closed s then 1 else 0).

(** The states of a call whose [Stream()] fails with [e]. *)
Definition failed_open (e : string) (s : State) : Prop :=
  match m_pc s with
  | M_Start => ctx_done s = false /\ w_pc s = W_Idle
  | M_Open => ctx_done s = true -> w_pc s = W_Done
  | M_Returned err => err = Some e
  | _ => False
  end
  /\ b_pc s = B_Idle /\ blocked s = true
  /\ sends (trace s) = [] /\ received s = [] /\ buf s = []
  /\ stream_closed s = false
  /\ ch_closed s = watchdog_closed (w_pc s)
  /\ (w_pc s = W_Done -> ctx_done s = true).



(** [Logs] up to its return with an error, then the timer. *)
Definition failed_then_timer : list Actor :=
  [Main; Main; Watchdog; Watchdog; Watchdog].

(** The flag is cleared before the timer elapses; then one turn of the
    loop up to the receive. *)
Definition flag_first : list Actor :=
  [Main; Main; Main; Watchdog; Main; Main; Bridge; Bridge; Consumer].

(** A watchdog that read the flag as set and is past its close has closed
    the channel. *)
Definition armed_closed (s : State) : Prop :=
  closes s = true -> watchdog_closed (w_pc s) = true -> ch_closed s = true.

(** The bridge and a watchdog that read the flag as set never both get
    past their close. *)
Definition one_closer (s : State) : Prop :=
  closes s = true -> watchdog_closed (w_pc s) = true ->
  past_close (b_pc s) = true -> False.

(** The invariants that need no assumption on the schedule. *)
Definition reachable_inv (cfg : Config) (s : State) : Prop :=
  shape s /\ calm s /\ ledger cfg s /\ winding s /\ channel_log s
  /\ cleanup_log s /\ fired_once s.

(** What winding down achieves, from [s] to [s1]. *)
Definition wound_down (s s1 : State) : Prop :=
  b_pc s1 = B_Done /\ ch_closed s1 = true /\ crashed s1 = false
  /\ length (buf s1) <= length (buf s)
  /\ length (sends (trace s1)) <= S (length (sends (trace s))).

End TailInv.

(** * More of the resource *)

Module ResourceExtra.

Import Resource.

Section WithHelpers.
Context `{H : Helpers}.

(** [SetPodMetrics] (lines 63-65). *)
Definition SetPodMetrics (m : option PodMetrics) (r : Container) : Container :=
  mkContainer (connection r) (pod r) (isInit r) (instance r) (metricsServer r)
    m (path r).

(** [Marshal] (lines 68-70): the empty text and a nil error. *)
Definition Marshal (r : Container) (p : string) : string * option string :=
  ("", None).

(** Some status of the slice carries the name. *)
Definition reported (name : string) (xs : list ContainerStatus) : bool :=
  existsb (fun el => bool_decide (cs_Name el = name)) xs.

End WithHelpers.

End ResourceExtra.

Module MoreSamples.

Import Resource ResourceExtra Samples.

(** A pod without containers, and its resource. *)
Definition podEmpty : Pod :=
  mkPod (mkObjectMeta "default" "idle" 0) (mkPodSpec [] []) (mkPodStatus [] []).

Definition resEmpty : Container (H := plainHelpers) :=
  NewContainer (H := plainHelpers) tt tt podEmpty.

(** Usage samples: one for [b], then two for [a]. *)
Definition metricsAB : PodMetrics :=
  mkPodMetrics [mkContainerMetrics "b" (cpuOnly 250);
                mkContainerMetrics "a" (cpuOnly 120);
                mkContainerMetrics "a" (cpuOnly 999)].

(** The entry for [a] once the samples have been attached. *)
Definition entryA_measured : Container (H := plainHelpers) :=
  SetPodMetrics (H := plainHelpers) (Some metricsAB) entryA.

(** A container that requests only ephemeral storage and is limited to
    500m of CPU. *)
Definition coStorage : v1Container :=
  mkV1Container "s" "img-s"
    (mkResourceRequirements (cpuOnly 500)
       {[ "ephemeral-storage" := mkQuantity 0 1073741824 ]})
    None None.

(** A state that is both waiting, without a reason, and running. *)
Definition stateWaitingRunning : ContainerState :=
  mkContainerState (Some (mkWaiting "")) (Some mkRunning) None.

End MoreSamples.

(** * Properties of the tabular part *)

Module ResourceFacts.

Import Resource.

Section WithHelpers.
Context `{H : Helpers}.

Lemma foldl_Panic {A B} (f : result A -> B -> result A) msg (xs : list B) :
  (forall b, f (Panic msg) b = Panic msg) ->
  foldl f (Panic msg) xs = Panic msg.
Proof.
  intros Hf. induction xs as [|x xs IH]; simpl; [done|]. by rewrite Hf.
Qed.

(** [New] never accepts the value [List] hands it. *)
Lemma New_of_value (r : Container) (co : v1Container) :
  exists msg, New r (AsContainer co) = Panic msg.
Proof. eexists. reflexivity. Qed.

(** With a pointer, [New] builds the entry the loops of [List] expect. *)
Lemma New_of_pointer (r : Container) (co : v1Container) :
  exists c, New r (AsContainerPtr (Some co)) = Ok c
            /\ instance c = Some co /\ isInit c = false /\ pod c = pod r.
Proof. eexists. split; [reflexivity|]. done. Qed.

(** [List] panics as soon as the pod has a container of either kind. *)
Lemma List_panics (r : Container) (ns : string) :
  (InitContainers (pod_Spec (pod r)) ++ Containers (pod_Spec (pod r)))%list <> [] ->
  exists msg, List r ns = Panic msg.
Proof.
  intros Hne. unfold List.
  destruct (InitContainers (pod_Spec (pod r))) as [|ico icos].
  - destruct (Containers (pod_Spec (pod r))) as [|co cos]; [done|].
    eexists. simpl. rewrite foldl_Panic; [reflexivity | done].
  - eexists. simpl. rewrite foldl_Panic; [reflexivity | done].
Qed.

(** Only a pod without containers gets a listing. *)
Lemma List_empty (r : Container) (ns : string) :
  InitContainers (pod_Spec (pod r)) = [] ->
  Containers (pod_Spec (pod r)) = [] ->
  List r ns = Ok ([], None).
Proof. intros Hi Hc. unfold List. by rewrite Hi, Hc. Qed.

(** The pointer a range loop leaves behind is set as soon as one element
    carries the name. *)
Lemma range_statuses_ptr (x : LoopVar) (name : string)
    (xs : list ContainerStatus) (acc : Store * option LoopVar) :
  (range_statuses x name xs acc).2 =
    if existsb (fun el => bool_decide (cs_Name el = name)) xs then Some x else acc.2.
Proof.
  revert acc. induction xs as [|el xs IH]; intros acc; [done|].
  unfold range_statuses in *. simpl foldl. rewrite IH. simpl existsb.
  destruct (decide (cs_Name el ≠ name)) as [Hne|Heq]; simpl.
  - by rewrite bool_decide_eq_false_2.
  - rewrite bool_decide_eq_true_2 by (by apply dec_stable).
    simpl. by destruct (existsb _ xs).
Qed.

(** The loop variable holds the last element of the slice, whatever its
    name. *)
Lemma range_statuses_var (x : LoopVar) (name : string)
    (xs : list ContainerStatus) (acc : Store * option LoopVar) :
  (range_statuses x name xs acc).1 x = default (acc.1 x) (last xs).
Proof.
  revert acc. induction xs as [|el xs IH]; intros acc; [done|].
  unfold range_statuses in *. simpl foldl. rewrite IH.
  destruct xs as [|e2 xs'].
  - simpl. unfold assign.
    destruct (decide (cs_Name el ≠ name)); simpl; by rewrite decide_True.
  - rewrite last_cons_cons.
    destruct (last (e2 :: xs')) eqn:El; [done|].
    by apply last_None in El.
Qed.

(** [find_status] when the name is reported among [ContainerStatuses]: the
    result is the last entry of that slice. *)
Lemma find_status_takes_last (p : Pod) (name : string) :
  existsb (fun el => bool_decide (cs_Name el = name))
    (ContainerStatuses (pod_Status p)) = true ->
  find_status p name = last (ContainerStatuses (pod_Status p)).
Proof.
  intros Hex. unfold find_status.
  pose proof (range_statuses_ptr StatusVar name
                (ContainerStatuses (pod_Status p)) (zeroStore, None)) as Hp.
  pose proof (range_statuses_var StatusVar name
                (ContainerStatuses (pod_Status p)) (zeroStore, None)) as Hv.
  rewrite Hex in Hp. rewrite Hp. simpl. rewrite Hp. rewrite Hv.
  destruct (ContainerStatuses (pod_Status p)) as [|e es]; [done|].
  destruct (last (e :: es)) eqn:El; [done|].
  by apply last_None in El.
Qed.

(** Without a status of that name in either slice, [cs] stays nil. *)
Lemma find_status_none (p : Pod) (name : string) :
  existsb (fun el => bool_decide (cs_Name el = name))
    (ContainerStatuses (pod_Status p)) = false ->
  existsb (fun el => bool_decide (cs_Name el = name))
    (InitContainerStatuses (pod_Status p)) = false ->
  find_status p name = None.
Proof.
  intros H1 H2. unfold find_status.
  pose proof (range_statuses_ptr StatusVar name
                (ContainerStatuses (pod_Status p)) (zeroStore, None)) as Hp.
  rewrite H1 in Hp. simpl in Hp. rewrite Hp.
  rewrite range_statuses_ptr, H2. by rewrite Hp.
Qed.

(** The init statuses are looked at only when [ContainerStatuses] has no
    entry of that name. *)
Lemma find_status_ignores_init (p : Pod) (name : string) (ics : list ContainerStatus) :
  existsb (fun el => bool_decide (cs_Name el = name))
    (ContainerStatuses (pod_Status p)) = true ->
  find_status (mkPod (pod_ObjectMeta p) (pod_Spec p)
                 (mkPodStatus ics (ContainerStatuses (pod_Status p)))) name
  = find_status p name.
Proof.
  intros Hex. rewrite !find_status_takes_last; done.
Qed.

(** With no status of the container's name in either slice, the READY,
    STATE and RS columns are "false", the missing-value marker and "0". *)
Lemma Fields_defaults (r : Container) (ns : string) (i : v1Container) :
  instance r = Some i ->
  existsb (fun el => bool_decide (cs_Name el = co_Name i))
    (ContainerStatuses (pod_Status (pod r))) = false ->
  existsb (fun el => bool_decide (cs_Name el = co_Name i))
    (InitContainerStatuses (pod_Status (pod r))) = false ->
  exists row, Fields r ns = Ok row
    /\ row !! 2%nat = Some "false"
    /\ row !! 3%nat = Some MissingValue
    /\ row !! 4%nat = Some "0".
Proof.
  intros Hi H1 H2. unfold Fields. rewrite Hi.
  rewrite (find_status_none _ _ H1 H2). simpl.
  destruct (match metrics r with Some m => _ | None => _ end) as [cpu mem].
  destruct (resources i) as [rcpu rmem].
  eexists. split; [reflexivity|]. done.
Qed.

(** C10: [resources] prefers requests: non-empty requests are formatted
    whatever the limits are, limits are formatted only when the requests
    are empty, and a container with neither gets ("0", "0"). *)
Theorem C10_resources_requests_first (c : v1Container) :
  let req := Requests (co_Resources c) in
  let lim := Limits (co_Resources c) in
  (req <> ∅ -> resources c = toRes req
     /\ forall lim', resources
          (mkV1Container (co_Name c) (co_Image c) (mkResourceRequirements lim' req)
             (co_LivenessProbe c) (co_ReadinessProbe c)) = toRes req)
  /\ (req = ∅ -> lim <> ∅ -> resources c = toRes lim)
  /\ (req = ∅ -> lim = ∅ -> resources c = ("0", "0")).
Proof.
  intros req lim. unfold resources. fold req lim. repeat split.
  - rewrite decide_False; [done|]. by rewrite map_size_empty_iff.
  - intros lim'. simpl. rewrite decide_False; [done|]. by rewrite map_size_empty_iff.
  - intros Hreq Hlim. rewrite decide_True by (by rewrite map_size_empty_iff).
    rewrite decide_True; [done|]. by rewrite map_size_empty_iff.
  - intros Hreq Hlim. rewrite decide_True by (by rewrite map_size_empty_iff).
    rewrite decide_False; [done|]. intros Hne. apply Hne. by rewrite map_size_empty_iff.
Qed.

End WithHelpers.

End ResourceFacts.

(** ** The tabular part on the sample pod *)

Module ResourceExamples.

Import Resource Samples.

#[local] Existing Instance plainHelpers.

Lemma C10_resources_requests_first_witness :
  resources coA = toRes (Samples.cpuOnly 100)
  /\ resources coB = toRes (Samples.cpuOnly 500)
  /\ resources coC = ("0", "0").
Proof.
  split; [|split].
  - apply (ResourceFacts.C10_resources_requests_first coA).
    apply insert_non_empty.
  - apply (ResourceFacts.C10_resources_requests_first coB); [reflexivity|].
    apply insert_non_empty.
  - apply (ResourceFacts.C10_resources_requests_first coC); reflexivity.
Defined.

(** C8: on the sample pod, whose spec has the two containers [a] and [b],
    [List] returns no entries: the loop passes a [v1.Container] value to
    [New], whose type assertion to the pointer type panics. *)
Theorem C8_List_panics_on_pod :
  List resAB "default"
  = Panic "interface conversion: interface {} is v1.Container, not *v1.Container".
Proof. reflexivity. Qed.

(** C9: for the container [a] of the sample pod, whose own status is
    ready, running and restarted 3 times, [Fields] shows the status of
    [b], the last entry of [ContainerStatuses]: the pointer taken in the
    loop refers to the loop variable, which later iterations overwrite. *)
Theorem C9_Fields_shows_last_status :
  status_columns (Some stA) = ("true", "Running", "3")
  /\ find_status podAB "a" = Some stB
  /\ Fields entryA "default"
     = Ok ["a"; "img-a"; "false"; "CrashLoopBackOff"; "7"; "no"; "yes";
           "0m"; "0Mi"; "100m"; "0Mi"; "0"].
Proof. repeat split; vm_compute; reflexivity. Qed.

End ResourceExamples.

(** * Properties of the log tail *)

Module TailFacts.

Import Tail TailInv.



Lemma run_app cfg (s1 s2 : list Actor) (s : State) :
  run cfg (s1 ++ s2) s = run cfg s2 (run cfg s1 s).
Proof. unfold run. by rewrite foldl_app. Qed.

Lemma run_snoc cfg (sched : list Actor) (a : Actor) (s : State) :
  run cfg (sched ++ [a]) s = step cfg a (run cfg sched s).
Proof. by rewrite run_app. Qed.

(** A property that holds initially and is kept by every step holds
    after every schedule. *)
Lemma exec_ind cfg (P : State -> Prop) :
  P init ->
  (forall a s, P s -> P (step cfg a s)) ->
  forall sched, P (exec cfg sched).
Proof.
  intros Hi Hs sched. induction sched as [|a sched IH] using rev_ind.
  - exact Hi.
  - unfold exec. rewrite run_snoc. by apply Hs.
Qed.


Ltac unfold_step :=
  unfold step, step_main, step_watchdog, step_bridge, step_caller,
    step_consumer, step_transport, cancel, close_chan,
    set_m_pc, set_w_pc, set_b_pc, set_blocked, set_closes, set_ctx_done,
    set_stream, set_stream_closed, set_buf, set_ch_closed, set_received,
    set_seen_closed, set_panicking, set_crashed, log in *.

Ltac open_state s :=
  destruct s as [mpc wpc bpc blk cls done str sclosed bf chc rcv seen pan cr tr].

Ltac step_cases :=
  repeat (case_match; cbn in *; simplify_eq; try done; try lia).

(** Forward chaining over the guarded facts of an invariant. *)
Ltac tidy :=
  repeat first
    [ progress (cbn in *; simplify_eq)
    | match goal with
      | H : _ /\ _ |- _ => destruct H
      | H : ?x = ?x -> _ |- _ => specialize (H eq_refl)
      | H : ?P -> _, H' : ?P |- _ => specialize (H H')
      | H : ?a = ?b -> _ |- _ =>
          let E := fresh in assert (E : a <> b) by discriminate; clear H E
      end ].

Ltac close_goal :=
  tidy; repeat split; intros; tidy;
  rewrite ?app_nil_r in *; try done; try congruence; try lia.

Lemma fired_once_step cfg a s : fired_once s -> fired_once (step cfg a s).
Proof.
  unfold fired_once. open_state s. unfold_step. cbn.
  intros Hc. destruct cr; [done|].
  destruct a; cbn; step_cases.
Qed.

Lemma shape_init : shape init.
Proof. unfold shape; cbn; intuition congruence. Qed.

Lemma shape_step cfg a s : shape s -> shape (step cfg a s).
Proof.
  unfold shape. open_state s. unfold_step. cbn. intros Hs.
  destruct cr; [done|].
  destruct a; cbn; step_cases; close_goal.
Qed.

Lemma calm_init : calm init.
Proof. unfold calm; cbn; intuition congruence. Qed.

Lemma calm_step cfg a s : shape s -> calm s -> calm (step cfg a s).
Proof.
  unfold shape, calm. open_state s. unfold_step. cbn.
  intros Hs Hc.
  destruct cr; [done|].
  destruct a; cbn; step_cases; close_goal.
Qed.

Lemma ledger_init cfg : ledger cfg init.
Proof. unfold ledger; cbn; intuition (try congruence; try lia). Qed.

Lemma ledger_step cfg a s :
  shape s -> calm s -> ledger cfg s -> ledger cfg (step cfg a s).
Proof.
  unfold shape, calm, ledger, handed_out, lines_of. open_state s. unfold_step. cbn.
  intros Hs Hc Hl.
  destruct cr; [done|].
  destruct a; cbn; step_cases; close_goal.
  all: try (rewrite ?length_app in *; cbn in *; lia).
  all: try (rewrite <- ?app_assoc in *; cbn in *; try done; try congruence).
  all: try (rewrite app_assoc; congruence).
  all: match goal with
       | H : (_ ++ _)%list = [] |- _ => apply app_eq_nil in H as [E1 E2]
       end; by rewrite E1.
Qed.

Lemma winding_init : winding init.
Proof. unfold winding; cbn; intuition (try congruence; try lia). Qed.

Lemma winding_step cfg a s : shape s -> winding s -> winding (step cfg a s).
Proof.
  unfold shape, winding. open_state s. unfold_step. cbn.
  intros Hs (Hd & Hle & Hone).
  destruct cr; [done|].
  assert (Hz : sends_after_fire tr = 0
               \/ (sends_after_fire tr = 1 /\ done = true
                   /\ (bpc = B_Check \/ loop_left bpc = true))).
  { destruct (sends_after_fire tr) as [|[|n]]; [by left| right; tauto | lia]. }
  clear Hle Hone.
  destruct Hz as [Hz|(Hz & Hf & Hb)].
  - destruct a; cbn; step_cases; rewrite ?Hz, <- ?Hd; cbn;
      repeat split; intros; try done; try lia; try (right; done); try (by left).
  - subst done.
    destruct a; cbn; step_cases; rewrite ?Hz, <- ?Hd; cbn;
      repeat split; intros; try done; try lia; tidy;
      try (destruct Hb; done); try (right; done); try (by left).
Qed.

Lemma undisturbed_init cfg : undisturbed cfg init.
Proof. unfold undisturbed; cbn; intuition congruence. Qed.

Lemma undisturbed_step cfg a s :
  a <> Caller -> shape s -> calm s -> undisturbed cfg s ->
  undisturbed cfg (step cfg a s).
Proof.
  unfold shape, calm, undisturbed. open_state s. unfold_step. cbn.
  intros Ha Hs Hc Hu.
  destruct cr; [done|].
  destruct a; cbn; step_cases; close_goal.
Qed.

Lemma channel_log_init : channel_log init.
Proof. unfold channel_log; cbn; intuition congruence. Qed.

Lemma channel_log_step cfg a s : channel_log s -> channel_log (step cfg a s).
Proof.
  unfold channel_log. open_state s. unfold_step. cbn.
  intros (Hc & He & Hs & Hp).
  destruct cr; [done|].
  destruct a; cbn; step_cases; rewrite ?He, ?Hs; cbn;
    repeat split; intros; tidy; try done; try lia.
Qed.

Lemma failed_open_init e : failed_open e init.
Proof. unfold failed_open; cbn; intuition congruence. Qed.

Lemma failed_open_step cfg e a s :
  open_result cfg = OpenFailed e ->
  failed_open e s -> failed_open e (step cfg a s).
Proof.
  unfold failed_open. open_state s. unfold_step. cbn.
  intros Ho Hf. rewrite Ho.
  destruct cr; [done|].
  destruct a; cbn; step_cases; close_goal.
Qed.

Lemma cleanup_log_init : cleanup_log init.
Proof. unfold cleanup_log; cbn; done. Qed.

Lemma cleanup_log_step cfg a s : shape s -> cleanup_log s -> cleanup_log (step cfg a s).
Proof.
  unfold shape, cleanup_log. open_state s. unfold_step. cbn.
  intros Hs (Hc & He).
  destruct cr; [done|].
  destruct a; cbn; step_cases; close_goal.
Qed.

Lemma exec_reachable cfg sched : reachable_inv cfg (exec cfg sched).
Proof.
  apply exec_ind.
  - exact (conj shape_init (conj calm_init (conj (ledger_init cfg)
             (conj winding_init (conj channel_log_init
                (conj cleanup_log_init eq_refl)))))).
  - intros a s (Hs & Hc & Hl & Hw & Hch & Hcl & Hf).
    exact (conj (shape_step cfg a s Hs) (conj (calm_step cfg a s Hs Hc)
             (conj (ledger_step cfg a s Hs Hc Hl) (conj (winding_step cfg a s Hs Hw)
                (conj (channel_log_step cfg a s Hch)
                   (conj (cleanup_log_step cfg a s Hs Hcl)
                      (fired_once_step cfg a s Hf))))))).
Qed.

Lemma exec_undisturbed cfg sched :
  Caller ∉ sched -> undisturbed cfg (exec cfg sched).
Proof.
  induction sched as [|a sched IH] using rev_ind; intros Hn.
  - apply undisturbed_init.
  - unfold exec. rewrite run_snoc.
    apply not_elem_of_app in Hn as [Hn Ha].
    destruct (exec_reachable cfg sched) as (Hs & Hc & _).
    apply undisturbed_step; auto.
    intros ->. apply Ha. by left.
Qed.

Lemma exec_failed_open e cap sched :
  failed_open e (exec (mkConfig (OpenFailed e) cap) sched).
Proof.
  apply exec_ind; [apply failed_open_init|].
  intros a s. by apply failed_open_step.
Qed.

(** [closes] is only ever set, by the watchdog's read of the flag. *)
Lemma closes_step cfg a s :
  closes (step cfg a s) = false -> timer_pending (w_pc s) = true \/ closes s = false.
Proof.
  open_state s. unfold_step. cbn. destruct cr; [by right|].
  destruct a; cbn; step_cases; auto.
Qed.

Lemma armed_closed_step cfg a s :
  shape s -> armed_closed s -> armed_closed (step cfg a s).
Proof.
  unfold shape, armed_closed. open_state s. unfold_step. cbn.
  intros Hs Ha.
  destruct cr; [done|].
  destruct a; cbn; step_cases; close_goal.
Qed.

Lemma one_closer_step cfg a s :
  shape s -> armed_closed s -> one_closer s -> one_closer (step cfg a s).
Proof.
  unfold shape, armed_closed, one_closer. open_state s. unfold_step. cbn.
  intros Hs Ha Ho.
  destruct cr; [done|].
  destruct a; cbn; step_cases; close_goal.
Qed.

Lemma exec_one_closer cfg sched :
  armed_closed (exec cfg sched) /\ one_closer (exec cfg sched).
Proof.
  induction sched as [|a sched IH] using rev_ind.
  - split; intros H; discriminate H.
  - unfold exec. rewrite run_snoc. destruct IH as [Ha Ho].
    destruct (exec_reachable cfg sched) as (Hs & _).
    split; [by apply armed_closed_step | by apply one_closer_step].
Qed.

(** A bridge that is done has called [cancel]. *)
Lemma bridge_done_fired cfg sched :
  b_pc (exec cfg sched) = B_Done -> ctx_done (exec cfg sched) = true.
Proof.
  apply (exec_ind cfg (fun s => b_pc s = B_Done -> ctx_done s = true)).
  - discriminate.
  - intros a s IH. open_state s. unfold_step. cbn in *.
    destruct cr; [done|]. destruct a; cbn; step_cases; close_goal.
Qed.





(** A consumer that keeps receiving from a closed channel empties the
    buffer and then sees the channel closed. *)
Lemma drain cfg n s :
  crashed s = false -> ch_closed s = true ->
  length (buf s) < n \/ (buf s = [] /\ seen_closed s = true) ->
  let s' := run cfg (replicate n Consumer) s in
  seen_closed s' = true /\ b_pc s' = b_pc s /\ trace s' = trace s
  /\ crashed s' = false /\ buf s' = [].
Proof.
  revert s. induction n as [|n IH]; intros s Hcr Hch Hb.
  - destruct Hb as [Hb|[Hb Hs]]; [lia|]. cbn. done.
  - cbn [replicate run foldl].
    assert (Hstep : crashed (step cfg Consumer s) = false
                    /\ ch_closed (step cfg Consumer s) = true
                    /\ b_pc (step cfg Consumer s) = b_pc s
                    /\ trace (step cfg Consumer s) = trace s
                    /\ (length (buf (step cfg Consumer s)) < n
                        \/ (buf (step cfg Consumer s) = []
                            /\ seen_closed (step cfg Consumer s) = true))).
    { revert Hcr Hch Hb. clear. open_state s. unfold_step. cbn.
      intros -> -> Hb. destruct bf as [|l bf]; cbn in *.
      - repeat split. by right.
      - repeat split. left. destruct Hb as [Hb|[Hb _]]; [lia|done]. }
    destruct Hstep as (H1 & H2 & H3 & H4 & H5).
    specialize (IH (step cfg Consumer s) H1 H2 H5). cbn zeta in IH.
    unfold run in IH |- *.
    destruct IH as (I1 & I2 & I3 & I4 & I5).
    rewrite I2, I3, H3, H4. done.
Qed.

Lemma run_cons cfg a l s : run cfg (a :: l) s = run cfg l (step cfg a s).
Proof. reflexivity. Qed.

Lemma run_nil cfg s : run cfg [] s = s.
Proof. reflexivity. Qed.

Ltac one_step :=
  rewrite run_cons; unfold_step; cbn -[run];
  repeat match goal with
         | |- context [decide ?P] => destruct (decide P); cbn -[run]; try lia
         end.

Lemma wind_prefix cfg s :
  shape s -> calm s -> ledger cfg s ->
  closes s = false -> ctx_done s = true -> b_pc s <> B_Idle ->
  wound_down s
    (run cfg [Transport; Consumer; Bridge; Bridge; Bridge; Bridge; Bridge] s).
Proof.
  unfold shape, calm, ledger. open_state s. cbn [closes ctx_done b_pc crashed
    panicking ch_closed w_pc buf seen_closed received trace stream m_pc blocked].
  intros Hs Hc Hl -> -> Hb.
  destruct (Hc eq_refl) as (-> & -> & _ & -> & _).
  destruct (Hl eq_refl) as (Hlen & _). clear Hs Hc Hl.
  destruct bpc; try done; destruct bf as [|l0 bf]; cbn [past_close];
    cbn [length] in Hlen;
    do 7 one_step; rewrite run_nil; unfold wound_down; cbn;
    rewrite ?length_app; cbn; repeat split; try done; try lia.
Qed.


(** X2: in every execution at most one send on the channel completes
    after the cancellation context is done. *)
Theorem at_most_one_send_after_cancel cfg sched :
  sends_after_fire (trace (exec cfg sched)) <= 1.
Proof. by destruct (exec_reachable cfg sched) as (_ & _ & _ & (_ & Hw & _) & _). Qed.

(** X3: as long as the watchdog has not read the flag as set, no send or
    close panics, the channel is closed exactly when the bridge is past its
    deferred close, by one close, and no send completes after it. *)
Theorem no_panic_while_watchdog_inert cfg sched :
  closes (exec cfg sched) = false ->
  crashed (exec cfg sched) = false
  /\ count is_panic (trace (exec cfg sched)) = 0
  /\ ch_closed (exec cfg sched) = past_close (b_pc (exec cfg sched))
  /\ count is_close (trace (exec cfg sched))
     = (if past_close (b_pc (exec cfg sched)) then 1 else 0)
  /\ sends_after_close (trace (exec cfg sched)) = 0.
Proof.
  intros Hc.
  destruct (exec_reachable cfg sched) as (_ & Hcalm & _ & _ & Hlog & _).
  destruct (Hcalm Hc) as (H1 & _ & H3 & H4 & _).
  destruct Hlog as (L1 & _ & L3 & _).
  rewrite <- H4. done.
Qed.

Lemma no_panic_while_watchdog_inert_witness :
  count is_panic
    (trace (exec (mkConfig (Opened ["a"; "b"] EndOfData) 1) (tail_schedule 2))) = 0.
Proof.
  apply (no_panic_while_watchdog_inert
           (mkConfig (Opened ["a"; "b"] EndOfData) 1) (tail_schedule 2)).
  vm_compute. reflexivity.
Defined.


(** X5: the watchdog and the bridge both run to their end only if the
    watchdog read the flag as cleared; then nothing has panicked, and the
    channel, the stream handle and the context have each been closed
    once. *)
Theorem both_finish_only_if_inert cfg sched :
  w_pc (exec cfg sched) = W_Done ->
  b_pc (exec cfg sched) = B_Done ->
  closes (exec cfg sched) = false
  /\ crashed (exec cfg sched) = false
  /\ count is_close (trace (exec cfg sched)) = 1
  /\ count is_stream_close (trace (exec cfg sched)) = 1
  /\ count is_fire (trace (exec cfg sched)) = 1.
Proof.
  intros Hw Hb.
  destruct (exec_one_closer cfg sched) as [_ Ho].
  destruct (exec_reachable cfg sched)
    as (Hs & Hcalm & _ & Hwi & Hlog & (Hsc & Hcnt) & Hf).
  assert (Hc : closes (exec cfg sched) = false).
  { destruct (closes (exec cfg sched)) eqn:E; [|done].
    exfalso. apply Ho; [done | by rewrite Hw | by rewrite Hb]. }
  destruct (Hcalm Hc) as (H1 & _ & _ & H4 & _).
  destruct Hlog as (L1 & _).
  unfold fired_once in Hf.
  rewrite Hb in *. cbn in *.
  rewrite H4 in L1. rewrite Hsc in Hcnt.
  pose proof (bridge_done_fired cfg sched) as Hd.
  rewrite Hb in Hd. specialize (Hd eq_refl).
  rewrite Hd in Hf. done.
Qed.

Lemma both_finish_only_if_inert_witness :
  closes (exec (mkConfig (Opened ["a"] EndOfData) 0) (tail_schedule 1 ++ [Watchdog]))
  = false.
Proof.
  apply (both_finish_only_if_inert (mkConfig (Opened ["a"] EndOfData) 0)
           (tail_schedule 1 ++ [Watchdog])); vm_compute; reflexivity.
Defined.

(** X6: when [Stream()] fails, [Logs] returns that error and nothing
    else; the bridge is never started, no line is sent or received and
    nothing panics; [Logs] itself neither closes the channel nor cancels:
    the channel is closed exactly when the watchdog, which always finds the
    flag set, has closed it, and a watchdog that is done has cancelled. *)
Theorem open_failure_left_to_watchdog e cap sched :
  let cfg := mkConfig (OpenFailed e) cap in
  let s := exec cfg sched in
  m_pc (run cfg [Main; Main] s) = M_Returned (Some e)
  /\ (forall err, m_pc s = M_Returned err -> err = Some e)
  /\ b_pc s = B_Idle /\ sends (trace s) = [] /\ received s = []
  /\ crashed s = false /\ blocked s = true
  /\ ch_closed (step cfg Main s) = ch_closed s
  /\ ctx_done (step cfg Main s) = ctx_done s
  /\ ch_closed s = watchdog_closed (w_pc s)
  /\ (w_pc s = W_Done -> ctx_done s = true).
Proof.
  intros cfg s.
  pose proof (exec_failed_open e cap sched) as Hf. fold cfg in Hf. fold s in Hf.
  destruct (exec_reachable cfg sched) as (Hs & _). fold s in Hs.
  destruct Hf as (Hm & Hb & Hblk & Hse & Hr & Hbuf & Hsc & Hch & Hw).
  destruct Hs as (_ & Hcr & _).
  destruct (Hcr Hb) as [Hcr' _].
  revert Hm Hcr' Hch Hw Hb Hse Hr Hblk. generalize s. clear.
  intros s. open_state s. unfold_step. cbn. intros. subst.
  destruct mpc; cbn in *; repeat split; intros; simplify_eq; try done; tauto.
Qed.

Lemma open_failure_left_to_watchdog_witness :
  let cfg := mkConfig (OpenFailed "not found") 0 in
  m_pc (exec cfg [Main; Main]) = M_Returned (Some "not found")
  /\ ctx_done (exec cfg failed_then_timer) = true.
Proof.
  intros cfg. split.
  - apply (open_failure_left_to_watchdog "not found" 0 []).
  - apply (open_failure_left_to_watchdog "not found" 0 failed_then_timer).
    reflexivity.
Defined.





(** X8: when the flag is cleared before the timer elapses, the watchdog
    stays inert and the first line of the stream reaches the consumer over
    the still open channel, whatever the channel's capacity. *)
Theorem line_delivered_after_inert_timer l ls e cap :
  let s := exec (mkConfig (Opened (l :: ls) e) cap) flag_first in
  closes s = false /\ w_pc s = W_Done /\ received s = [l]
  /\ ch_closed s = false /\ crashed s = false.
Proof. destruct cap; vm_compute; done. Qed.

(** X9: while the watchdog has not read the flag as set, no line is lost,
    duplicated or reordered, cancelled or not: what the consumer has
    received, then the channel's buffer, then the line the bridge holds,
    then what is still unread, make up the stream's lines in order, and the
    buffer stays within the channel's capacity.  If moreover the caller
    never cancels, a consumer that sees the channel closed has received
    every line of the stream. *)
Theorem lines_delivered_in_order ls e cap sched :
  let cfg := mkConfig (Opened ls e) cap in
  let s := exec cfg sched in
  closes s = false ->
  (received s ++ buf s ++ pending (b_pc s) ++ stream s)%list = handed_out cfg s
  /\ sends (trace s) = (received s ++ buf s)%list
  /\ received s `prefix_of` ls
  /\ length (buf s) <= cap
  /\ (Caller ∉ sched -> seen_closed s = true -> received s = ls).
Proof.
  intros cfg s Hc.
  destruct (exec_reachable cfg sched) as (Hs & Hcalm & Hl & _).
  fold s in Hs, Hcalm, Hl.
  destruct (Hl Hc) as (L1 & L2 & L3 & L4).
  destruct (Hcalm Hc) as (_ & _ & _ & C4 & _).
  assert (E : (received s ++ buf s ++ pending (b_pc s) ++ stream s)%list
              = handed_out cfg s).
  { rewrite <- L4, <- L3, <- app_assoc. done. }
  split; [done|]. split; [done|]. split; [|split; [done|]].
  - unfold handed_out, lines_of in E. cbn in E.
    destruct (m_pc s); first [ apply app_eq_nil in E as [-> _]; apply prefix_nil
                             | rewrite <- E; by apply prefix_app_r ].
  - intros Hn Hseen.
    pose proof (exec_undisturbed cfg sched Hn) as Hu. fold s in Hu.
    destruct (Hu Hc) as (_ & U2).
    destruct (L2 Hseen) as [Hch Hb].
    rewrite C4 in Hch.
    assert (Hll : loop_left (b_pc s) = true) by (by destruct (b_pc s)).
    destruct (U2 Hll) as [Hstr _].
    destruct Hs as (_ & _ & _ & _ & Hsp & _).
    rewrite Hb, Hstr in E.
    assert (Hp : pending (b_pc s) = []) by (by destruct (b_pc s)).
    rewrite Hp, !app_nil_r in E. rewrite E.
    unfold handed_out, lines_of. cbn.
    destruct (m_pc s); try done; cbn in Hsp; rewrite (Hsp eq_refl) in Hch; done.
Qed.

Lemma lines_delivered_in_order_witness :
  received (exec (mkConfig (Opened ["a"; "b"; "c"] EndOfData) 1) (tail_schedule 3))
  = ["a"; "b"; "c"].
Proof.
  apply (lines_delivered_in_order ["a"; "b"; "c"] EndOfData 1 (tail_schedule 3)).
  - reflexivity.
  - vm_compute. intros H. repeat (apply elem_of_cons in H as [H|H]; [discriminate H|]).
    by apply elem_of_nil in H.
  - reflexivity.
Defined.





(** X12: once the context is done while the bridge runs and the watchdog
    has not read the flag as set, the tail winds down: when the pending
    read fails and the consumer keeps receiving, the bridge completes at
    most one more send, leaves the loop without reading further, runs its
    cleanup to the end without a panic, and the consumer drains the buffer
    and sees the channel closed. *)
Theorem cancel_winds_down cfg sched :
  let s := exec cfg sched in
  ctx_done s = true -> b_pc s <> B_Idle -> closes s = false ->
  let s' := run cfg (wind_down s) s in
  b_pc s' = B_Done /\ seen_closed s' = true /\ crashed s' = false
  /\ buf s' = []
  /\ length (sends (trace s')) <= S (length (sends (trace s))).
Proof.
  intros s Hd Hb Hc s'.
  destruct (exec_reachable cfg sched) as (Hs & Hcalm & Hl & _).
  fold s in Hs, Hcalm, Hl.
  pose proof (wind_prefix cfg s Hs Hcalm Hl Hc Hd Hb) as (W1 & W2 & W3 & W4 & W5).
  subst s'. unfold wind_down. rewrite run_app.
  set (s1 := run cfg [Transport; Consumer; Bridge; Bridge; Bridge; Bridge; Bridge] s) in *.
  destruct (drain cfg (S (length (buf s))) s1 W3 W2) as (D1 & D2 & D3 & D4 & D5).
  { left. lia. }
  rewrite D2, D3. done.
Qed.

Lemma cancel_winds_down_witness :
  let cfg := mkConfig (Opened ["a"; "b"] Hangs) 0 in
  let s := exec cfg [Main; Main; Main; Main; Main; Bridge; Consumer; Bridge; Caller] in
  seen_closed (run cfg (wind_down s) s) = true.
Proof.
  intros cfg s.
  apply (cancel_winds_down cfg
           [Main; Main; Main; Main; Main; Bridge; Consumer; Bridge; Caller]);
    [vm_compute; reflexivity | vm_compute; discriminate | vm_compute; reflexivity].
Defined.

(** X13: a tail whose stream blocks after its last line is not ended by
    the code itself: unless the caller cancels or the watchdog read the
    flag as set, the bridge stays in its loop, the channel stays open and
    the context armed, under every schedule. *)
Theorem hanging_tail_stays_open ls cap sched :
  let s := exec (mkConfig (Opened ls Hangs) cap) sched in
  Caller ∉ sched -> closes s = false ->
  loop_left (b_pc s) = false /\ ch_closed s = false
  /\ ctx_done s = false /\ seen_closed s = false.
Proof.
  intros s Hn Hc.
  destruct (exec_reachable (mkConfig (Opened ls Hangs) cap) sched)
    as (_ & Hcalm & Hl & _).
  pose proof (exec_undisturbed (mkConfig (Opened ls Hangs) cap) sched Hn) as Hu.
  fold s in Hcalm, Hl, Hu.
  destruct (Hcalm Hc) as (_ & _ & _ & C4 & _).
  destruct (Hl Hc) as (_ & L2 & _).
  destruct (Hu Hc) as (U1 & U2).
  assert (Hll : loop_left (b_pc s) = false).
  { destruct (loop_left (b_pc s)) eqn:E; [|done].
    destruct (U2 eq_refl) as [_ Hne]. by destruct (Hne ls). }
  assert (Hch : ch_closed s = false).
  { rewrite C4. by destruct (b_pc s). }
  repeat split; try done.
  - destruct (ctx_done s); [|done]. rewrite (U1 eq_refl) in Hll. done.
  - destruct (seen_closed s); [|done]. destruct (L2 eq_refl) as [E _]. congruence.
Qed.

Lemma hanging_tail_stays_open_witness :
  ch_closed (exec (mkConfig (Opened ["a"] Hangs) 1) (tail_schedule 1)) = false.
Proof.
  apply (hanging_tail_stays_open ["a"] 1 (tail_schedule 1)).
  - vm_compute. intros H.
    repeat (apply elem_of_cons in H as [H|H]; [discriminate H|]).
    by apply elem_of_nil in H.
  - vm_compute. reflexivity.
Defined.

Lemma cleanup_steps cfg s :
  calm s -> closes s = false -> b_pc s = B_Close ->
  let s3 := run cfg [Bridge; Bridge; Bridge] s in
  b_pc s3 = B_Done /\ ch_closed s3 = true /\ stream_closed s3 = true
  /\ ctx_done s3 = true /\ crashed s3 = false
  /\ trace s3 = ((if ctx_done s then [] else [EvFire])
                  ++ [EvStreamClose; EvClose] ++ trace s)%list.
Proof.
  unfold calm. open_state s. cbn [closes b_pc]. intros Hc -> ->.
  destruct (Hc eq_refl) as (Hcr & Hp & _ & Hch & _). cbn in Hcr, Hp, Hch. subst.
  do 3 one_step. rewrite run_nil. by destruct done.
Qed.

(** X14: the bridge's deferred function closes the stream handle once in
    every execution, and never before the bridge is past that call; as
    long as the watchdog has not read the flag as set, a bridge that has
    left its loop closes the channel, then the stream, then cancels, in
    that order and without a panic, the cancellation being a no-op when the
    context is already done. *)
Theorem bridge_cleanup cfg sched :
  let s := exec cfg sched in
  stream_closed s = past_stream_close (b_pc s)
  /\ count is_stream_close (trace s) = (if stream_closed s then 1 else 0)
  /\ (closes s = false -> b_pc s = B_Close ->
      let s3 := run cfg [Bridge; Bridge; Bridge] s in
      b_pc s3 = B_Done /\ ch_closed s3 = true /\ stream_closed s3 = true
      /\ ctx_done s3 = true /\ crashed s3 = false
      /\ trace s3 = ((if ctx_done s then [] else [EvFire])
                      ++ [EvStreamClose; EvClose] ++ trace s)%list).
Proof.
  intros s.
  destruct (exec_reachable cfg sched) as (_ & Hcalm & _ & _ & _ & (H1 & H2) & _).
  fold s in Hcalm, H1, H2.
  split; [done|]. split; [done|]. intros Hc Hb. by apply cleanup_steps.
Qed.

Lemma bridge_cleanup_witness :
  let cfg := mkConfig (Opened [] EndOfData) 0 in
  trace (run cfg [Bridge; Bridge; Bridge]
           (exec cfg [Main; Main; Main; Main; Main; Bridge]))
  = [EvFire; EvStreamClose; EvClose].
Proof.
  intros cfg.
  apply (bridge_cleanup cfg [Main; Main; Main; Main; Main; Bridge]);
    vm_compute; reflexivity.
Defined.






End TailFacts.

(** * More properties of the tabular part *)

Module ResourceMore.

Import Resource ResourceExtra ResourceFacts.

Section WithHelpers.
Context `{H : Helpers}.

(** X16: [List] returns a listing, the empty one with a nil error,
    exactly for a pod without init containers and containers; with at
    least one container of either kind it panics in [New] before returning
    anything. *)
Theorem List_only_for_empty_pod (r : Container) (ns : string) :
  let all := (InitContainers (pod_Spec (pod r)) ++ Containers (pod_Spec (pod r)))%list in
  (all = [] -> List r ns = Ok ([], None))
  /\ (all <> [] -> exists msg, List r ns = Panic msg).
Proof.
  intros all. split.
  - intros Hall. apply app_eq_nil in Hall as [Hi Hc]. by apply List_empty.
  - apply List_panics.
Qed.

(** X17: [New] accepts only a non-nil pointer to a container; the entry
    it builds has that container as instance, the pod of the receiver, the
    path "<namespaced pod name>:<container name>", no init mark, and fresh
    empty metrics, so that its CPU and MEM columns are those of a zero
    usage until [SetPodMetrics] is called, whatever metrics the receiver
    holds. *)
Theorem New_entry (r : Container) (co : v1Container) (ns : string) :
  (exists msg, New r (AsContainerPtr None) = Panic msg)
  /\ (exists msg, New r (AsContainer co) = Panic msg)
  /\ exists c, New r (AsContainerPtr (Some co)) = Ok c
       /\ instance c = Some co /\ pod c = pod r /\ isInit c = false
       /\ path c = namespacedName (pod_ObjectMeta (pod r)) ++ ":" ++ co_Name co
       /\ metrics c = Some (mkPodMetrics [])
       /\ exists row, Fields c ns = Ok row
            /\ row !! 7%nat = Some (ToMillicore 0)
            /\ row !! 8%nat = Some (ToMi 0%float).
Proof.
  split; [by eexists|]. split; [by eexists|].
  eexists. split; [reflexivity|]. cbn. repeat split.
  unfold Fields. cbn.
  destruct (resources co) as [rcpu rmem].
  destruct (status_columns _) as [[ready state] restarts].
  eexists. split; [reflexivity|]. done.
Qed.

Lemma usage_first_match (name : string) (pre post : list ContainerMetrics)
    (co : ContainerMetrics) :
  Forall (fun c => cm_Name c <> name) pre -> cm_Name co = name ->
  usage name (pre ++ co :: post)
  = (MilliValue (index (cm_Usage co) ResourceCPU),
     ToMB (Value (index (cm_Usage co) ResourceMemory))).
Proof.
  intros Hpre Hco. induction Hpre as [|c pre Hc Hpre IH]; cbn.
  - by rewrite decide_True.
  - by rewrite decide_False.
Qed.

Lemma usage_no_match (name : string) (cs : list ContainerMetrics) :
  Forall (fun c => cm_Name c <> name) cs -> usage name cs = (0%Z, 0%float).
Proof.
  intros Hcs. induction Hcs as [|c cs Hc Hcs IH]; cbn; [done|].
  by rewrite decide_False.
Qed.

(** X18: the CPU and MEM columns of [Fields] come from the first usage
    sample that carries the container's name, later samples of that name
    being ignored; without metrics, or without a sample of that name, they
    are those of a zero usage. *)
Theorem Fields_usage_columns (r : Container) (ns : string) (i : v1Container) :
  instance r = Some i ->
  exists row, Fields r ns = Ok row
    /\ (forall pre co post,
          metrics r = Some (mkPodMetrics (pre ++ co :: post)) ->
          Forall (fun c => cm_Name c <> co_Name i) pre ->
          cm_Name co = co_Name i ->
          row !! 7%nat = Some (ToMillicore (MilliValue (index (cm_Usage co) ResourceCPU)))
          /\ row !! 8%nat
             = Some (ToMi (ToMB (Value (index (cm_Usage co) ResourceMemory)))))
    /\ ((metrics r = None
         \/ exists cs, metrics r = Some (mkPodMetrics cs)
                       /\ Forall (fun c => cm_Name c <> co_Name i) cs) ->
        row !! 7%nat = Some (ToMillicore 0) /\ row !! 8%nat = Some (ToMi 0%float)).
Proof.
  intros Hi. unfold Fields. rewrite Hi.
  destruct (resources i) as [rcpu rmem].
  destruct (status_columns _) as [[ready state] restarts].
  destruct (match metrics r with Some m => _ | None => _ end) as [cpu mem] eqn:E.
  eexists. split; [reflexivity|]. split.
  - intros pre co post Hm Hpre Hco. rewrite Hm in E. cbn in E.
    rewrite (usage_first_match _ _ _ _ Hpre Hco) in E. by simplify_eq.
  - intros [Hm|(cs & Hm & Hcs)]; rewrite Hm in E; cbn in E.
    + by simplify_eq.
    + rewrite (usage_no_match _ _ Hcs) in E. by simplify_eq.
Qed.

(** [find_status] when only the init statuses report the name: the last
    entry of that slice. *)
Lemma find_status_init_last (p : Pod) (name : string) :
  reported name (ContainerStatuses (pod_Status p)) = false ->
  reported name (InitContainerStatuses (pod_Status p)) = true ->
  find_status p name = last (InitContainerStatuses (pod_Status p)).
Proof.
  unfold reported. intros H1 H2. unfold find_status.
  pose proof (range_statuses_ptr StatusVar name
                (ContainerStatuses (pod_Status p)) (zeroStore, None)) as Hp.
  rewrite H1 in Hp. cbn in Hp. rewrite Hp.
  rewrite range_statuses_ptr, H2, range_statuses_var.
  destruct (InitContainerStatuses (pod_Status p)) as [|e es]; [done|].
  destruct (last (e :: es)) eqn:El; [done|]. by apply last_None in El.
Qed.

(** X19: the READY, STATE and RS columns of [Fields] are taken from the
    last entry of [ContainerStatuses] as soon as some entry of that slice
    carries the container's name, whichever entry that is; otherwise from
    the last entry of [InitContainerStatuses] if some entry there carries
    the name; and they are "false", the missing-value marker and "0" when
    neither slice reports the name. *)
Theorem Fields_status_columns (r : Container) (ns : string) (i : v1Container) :
  instance r = Some i ->
  let sts := ContainerStatuses (pod_Status (pod r)) in
  let ists := InitContainerStatuses (pod_Status (pod r)) in
  exists row ready state restarts,
    Fields r ns = Ok row
    /\ row !! 2%nat = Some ready /\ row !! 3%nat = Some state
    /\ row !! 4%nat = Some restarts
    /\ (reported (co_Name i) sts = true ->
        (ready, state, restarts) = status_columns (last sts))
    /\ (reported (co_Name i) sts = false -> reported (co_Name i) ists = true ->
        (ready, state, restarts) = status_columns (last ists))
    /\ (reported (co_Name i) sts = false -> reported (co_Name i) ists = false ->
        (ready, state, restarts) = ("false", MissingValue, "0")).
Proof.
  intros Hi sts ists. unfold Fields. rewrite Hi.
  destruct (match metrics r with Some m => _ | None => _ end) as [cpu mem].
  destruct (resources i) as [rcpu rmem].
  destruct (status_columns (find_status (pod r) (co_Name i)))
    as [[ready state] restarts] eqn:E.
  eexists; exists ready, state, restarts. split; [reflexivity|].
  split; [done|]. split; [done|]. split; [done|]. split; [|split].
  - intros Hr. by rewrite (find_status_takes_last _ _ Hr) in E.
  - intros H1 H2. by rewrite (find_status_init_last _ _ H1 H2) in E.
  - intros H1 H2. by rewrite (find_status_none _ _ H1 H2) in E.
Qed.

(** X20: [Fields] panics exactly when the receiver has no instance;
    otherwise its row has one cell per column of [Header], starts with the
    container's name and image, and marks each probe "yes" when it is set
    and "no" when it is nil. *)
Theorem Fields_row_shape (r : Container) (ns : string) :
  (instance r = None -> exists msg, Fields r ns = Panic msg)
  /\ (forall i, instance r = Some i ->
      exists row, Fields r ns = Ok row
        /\ length row = length (Header ns)
        /\ row !! 0%nat = Some (co_Name i) /\ row !! 1%nat = Some (co_Image i)
        /\ row !! 5%nat = Some (if co_LivenessProbe i is Some _ then "yes" else "no")
        /\ row !! 6%nat = Some (if co_ReadinessProbe i is Some _ then "yes" else "no")).
Proof.
  split.
  - intros Hi. unfold Fields. rewrite Hi. by eexists.
  - intros i Hi. unfold Fields. rewrite Hi.
    destruct (match metrics r with Some m => _ | None => _ end) as [cpu mem].
    destruct (resources i) as [rcpu rmem].
    destruct (status_columns _) as [[ready state] restarts].
    eexists. split; [reflexivity|]. cbn.
    by destruct (co_LivenessProbe i), (co_ReadinessProbe i).
Qed.

(** X21: [toState] names a state by precedence: a waiting state hides a
    terminated and a running one, a terminated state hides a running one,
    and an empty reason is replaced by "Waiting" or "Terminated"; so the
    STATE text is never empty as long as the missing-value marker is not. *)
Theorem toState_precedence (s : ContainerState) :
  (forall w, st_Waiting s = Some w ->
     toState s = if decide (w_Reason w = "") then "Waiting" else w_Reason w)
  /\ (forall t, st_Waiting s = None -> st_Terminated s = Some t ->
     toState s = if decide (t_Reason t = "") then "Terminated" else t_Reason t)
  /\ (st_Waiting s = None -> st_Terminated s = None ->
      toState s = if st_Running s is Some _ then "Running" else MissingValue)
  /\ (MissingValue <> "" -> toState s <> "").
Proof.
  unfold toState. repeat split.
  - intros w ->. by repeat case_decide.
  - intros t -> ->. by repeat case_decide.
  - intros -> ->. done.
  - intros Hm. destruct (st_Waiting s) as [w|].
    { case_decide; done. }
    destruct (st_Terminated s) as [t|].
    { case_decide; done. }
    by destruct (st_Running s).
Qed.

(** X22: the RCPU and RMEM columns of [Fields] are what [resources]
    gives, and [resources] looks only at the "cpu" and "memory" keys of the
    map it picks: requests that name neither of them still hide the limits
    and yield the columns of a zero quantity, not the "0" of a container
    without requests and limits. *)
Theorem resources_other_keys (r : Container) (ns : string) (i : v1Container) :
  instance r = Some i ->
  (exists row, Fields r ns = Ok row
     /\ row !! 9%nat = Some (resources i).1
     /\ row !! 10%nat = Some (resources i).2)
  /\ (Requests (co_Resources i) <> ∅ ->
      Requests (co_Resources i) !! ResourceCPU = None ->
      Requests (co_Resources i) !! ResourceMemory = None ->
      resources i = (ToMillicore 0, ToMi (ToMB 0))).
Proof.
  intros Hi. split.
  - unfold Fields. rewrite Hi.
    destruct (match metrics r with Some m => _ | None => _ end) as [cpu mem].
    destruct (resources i) as [rcpu rmem].
    destruct (status_columns _) as [[ready state] restarts].
    eexists. split; [reflexivity|]. done.
  - intros Hne Hcpu Hmem. unfold resources.
    rewrite decide_False by (by rewrite map_size_empty_iff).
    unfold toRes, index. by rewrite Hcpu, Hmem.
Qed.

End WithHelpers.

End ResourceMore.

(** ** The resource on the sample pods *)

Module ResourceMoreExamples.

Import Resource ResourceExtra Samples MoreSamples.

#[local] Existing Instance plainHelpers.

Lemma List_only_for_empty_pod_witness :
  List resEmpty "default" = Ok ([], None)
  /\ exists msg, List resAB "default" = Panic msg.
Proof.
  split.
  - apply (ResourceMore.List_only_for_empty_pod resEmpty "default"). reflexivity.
  - apply (ResourceMore.List_only_for_empty_pod resAB "default"). discriminate.
Defined.

Lemma Fields_usage_columns_witness :
  exists row, Fields entryA_measured "default" = Ok row
              /\ row !! 7%nat = Some "120m".
Proof.
  destruct (ResourceMore.Fields_usage_columns entryA_measured "default" coA eq_refl)
    as (row & Hrow & Hfirst & _).
  exists row. split; [exact Hrow|].
  apply (Hfirst [mkContainerMetrics "b" (cpuOnly 250)]
                (mkContainerMetrics "a" (cpuOnly 120))
                [mkContainerMetrics "a" (cpuOnly 999)]).
  - reflexivity.
  - repeat constructor. discriminate.
  - reflexivity.
Defined.

Lemma Fields_status_columns_witness :
  exists row, Fields entryA "default" = Ok row
              /\ row !! 3%nat = Some "CrashLoopBackOff".
Proof.
  destruct (ResourceMore.Fields_status_columns entryA "default" coA eq_refl)
    as (row & ready & state & restarts & Hrow & _ & Hstate & _ & Hlast & _).
  exists row. split; [exact Hrow|].
  specialize (Hlast eq_refl). rewrite Hstate. f_equal.
  change (status_columns (last (ContainerStatuses (pod_Status (pod entryA)))))
    with ("false", "CrashLoopBackOff", "7") in Hlast.
  congruence.
Defined.

Lemma Fields_row_shape_witness :
  exists row, Fields entryA "default" = Ok row /\ length row = 12.
Proof.
  destruct (ResourceMore.Fields_row_shape entryA "default") as [_ Hrow].
  destruct (Hrow coA eq_refl) as (row & Hf & Hlen & _).
  exists row. split; [exact Hf | exact Hlen].
Defined.

Lemma toState_precedence_witness :
  toState stateWaitingRunning = "Waiting" /\ toState stateWaitingRunning <> "".
Proof.
  destruct (ResourceMore.toState_precedence stateWaitingRunning)
    as (Hw & _ & _ & Hne).
  split.
  - apply (Hw (mkWaiting "")). reflexivity.
  - apply Hne. discriminate.
Defined.

Lemma resources_other_keys_witness :
  resources coStorage = ("0m", "0Mi").
Proof.
  destruct (ResourceMore.resources_other_keys
              (set_instance (Some coStorage) resAB) "default" coStorage eq_refl)
    as [_ Hres].
  apply Hres; [apply insert_non_empty | reflexivity | reflexivity].
Defined.

End ResourceMoreExamples.
